(** * CAN bit-timing search of can-config (src/avr-can.py, src/main.py)

    Shallow embedding of [get_config] and [best_error_rate].  Both source
    files contain the same search; the record follows avr-can.py, whose
    [Config] also stores [cpu_freq].

    Python's true division [cpu_freq / baudrate] is modelled as an exact
    rational ([Q]); [x % Tbit] on it as [x - Tbit * floor (x / Tbit)]
    (Python's modulo takes the sign of the divisor); [int (x)] as
    truncation toward zero.  Division by zero raises [ZeroDivisionError],
    modelled as the left injection of a sum. *)

From Stdlib Require Import ZArith QArith Qround List Bool Lia Lqa.
From Stdlib Require Import String Ascii DecimalString Qfield Sorted.
Import ListNotations.

Open Scope Z_scope.

(** ** Python helpers *)

(** Exceptions the search can raise. *)
Inductive py_error : Type :=
| ZeroDivisionError.

(** [is_even(n)]: [n % 2 == 0]. *)
Definition is_even (n : Z) : bool := Z.eqb (Z.modulo n 2) 0.

(** [int(q)] on a number: truncation toward zero. *)
Definition py_int (q : Q) : Z := Z.quot (Qnum q) (Zpos (Qden q)).

(** [x % t] for a number [x] and an integer [t > 0]. *)
Definition py_mod (x : Q) (t : Z) : Q :=
  (x - inject_Z t * inject_Z (Qfloor (x / inject_Z t)))%Q.

(** [x < y] on numbers. *)
Definition py_lt (x y : Q) : bool := negb (Qle_bool y x).

(** [range(lo, hi)]. *)
Definition py_range (lo hi : Z) : list Z :=
  map (fun i => lo + Z.of_nat i) (seq 0 (Z.to_nat (hi - lo))).

(** ** Data model: [class Config] *)

Record Config : Type := mkConfig {
  cpu_freq : Z;
  baudrate : Z;
  prescaler : Z;
  clks_pr_bit : Q;
  Tbit : Z;
  Tsyns : Z;
  Tprs : Z;
  Tph1 : Z;
  Tph2 : Z;
  Tsjw : Z;
  error_rate : Q
}.

(** ** The loop body of [get_config] *)

Section Body.

Variables (baud cpu : Z) (clks : Q).

(** [Tsyns = 1] and [Tsjw = 1]. *)
Definition Tsyns_of : Z := 1.
Definition Tsjw_of : Z := 1.

(** [Tprs = int(Tbit / 2 if is_even(Tbit) else (Tbit - 1) / 2)]. *)
Definition Tprs_of (T : Z) : Z :=
  if is_even T then Z.quot T 2 else Z.quot (T - 1) 2.

(** [Tph1 = int(Tprs / 2 if is_even(Tbit - Tprs - Tsyns) else (Tprs / 2) + 1)]. *)
Definition Tph1_of (T : Z) : Z :=
  let prs := Tprs_of T in
  if is_even (T - prs - Tsyns_of) then Z.quot prs 2 else Z.quot (prs + 2) 2.

(** [Tph2 = int(Tprs / 2)]. *)
Definition Tph2_of (T : Z) : Z := Z.quot (Tprs_of T) 2.

(** The range check: [continue] when it is false. *)
Definition segments_ok (T prs ph1 ph2 : Z) : bool :=
  Z.eqb T (Tsyns_of + prs + ph1 + ph2)
  && (1 <=? prs) && (prs <=? 8)
  && (1 <=? ph1) && (ph1 <=? 8)
  && (2 <=? ph2) && (ph2 <=? ph1).

(** [min_err_rate]: 0.5, or 1.58 on the override branch. *)
Definition min_err_rate (prs ph1 ph2 sjw b : Z) : Q :=
  if (prs =? 1) && ((ph1 =? 4) && (ph2 =? 4) && (sjw =? 4)) && (125 * 1000 <? b)
  then 158 # 100 else 1 # 2.

(** One iteration of [for Tbit in range(8, 25 + 1)]: the candidate
    appended to [valid_configs], if any. *)
Definition loop_body (T : Z) : option Config :=
  let err := py_mod clks T in
  let pre := py_int (clks / inject_Z T)%Q in
  if pre >? 2 ^ 6 then None else
  let syns := Tsyns_of in
  let prs := Tprs_of T in
  let ph1 := Tph1_of T in
  let ph2 := Tph2_of T in
  let sjw := Tsjw_of in
  if negb (segments_ok T prs ph1 ph2) then None else
  let thr := min_err_rate prs ph1 ph2 sjw baud in
  if py_lt err thr
  then Some (mkConfig cpu baud pre clks T syns prs ph1 ph2 sjw err)
  else None.

(** The loop, with [valid_configs] as accumulator. *)
Fixpoint run_loop (Ts : list Z) (valid_configs : list Config) : list Config :=
  match Ts with
  | [] => valid_configs
  | T :: Ts' =>
      match loop_body T with
      | Some c => run_loop Ts' (valid_configs ++ [c])
      | None => run_loop Ts' valid_configs
      end
  end.

End Body.

(** [clks_pr_bit = cpu_freq / baudrate]. *)
Definition py_div (cpu baud : Z) : py_error + Q :=
  if Z.eqb baud 0 then inl ZeroDivisionError
  else inr (inject_Z cpu / inject_Z baud)%Q.

(** [get_config(baudrate, cpu_freq)]. *)
Definition get_config (baud cpu : Z) : py_error + list Config :=
  match py_div cpu baud with
  | inl e => inl e
  | inr clks => inr (run_loop baud cpu clks (py_range 8 (25 + 1)) [])
  end.

(** [sorted(confs, key=lambda config: config.error_rate)]: a stable sort,
    here insertion sort; an element goes before the equal keys that
    followed it in the input. *)
Fixpoint insert_by_err (x : Config) (l : list Config) : list Config :=
  match l with
  | [] => [x]
  | y :: r =>
      if Qle_bool (error_rate x) (error_rate y) then x :: y :: r
      else y :: insert_by_err x r
  end.

Fixpoint sorted_by_err (l : list Config) : list Config :=
  match l with
  | [] => []
  | x :: r => insert_by_err x (sorted_by_err r)
  end.

(** [best_error_rate(baudrate, cpu_freq)]. *)
Definition best_error_rate (baud cpu : Z) : py_error + option Config :=
  match get_config baud cpu with
  | inl e => inl e
  | inr confs =>
      match confs with
      | [] => inr None
      | _ => inr (hd_error (sorted_by_err confs))
      end
  end.


(** The [Tbit] values that pass the range check. *)
Definition good_Tbits : list Z := [9; 10; 11; 13; 14; 15; 17].

(** The candidates of [get_config 1000000 1] (clks_pr_bit = 1/1000000). *)
Definition tiny_configs : list Config :=
  run_loop 1000000 1 (inject_Z 1 / inject_Z 1000000)%Q (py_range 8 (25 + 1)) [].



(** ** The relational semantics of the loop *)

(** A big-step execution of [for Tbit in Ts: ...] from [valid_configs]. *)
Inductive exec_loop (b c : Z) (x : Q) : list Z -> list Config -> list Config -> Prop :=
| ExecDone (acc : list Config) : exec_loop b c x [] acc acc
| ExecAppend (T : Z) (Ts : list Z) (acc r : list Config) (cfg : Config) :
    loop_body b c x T = Some cfg -> exec_loop b c x Ts (acc ++ [cfg]) r ->
    exec_loop b c x (T :: Ts) acc r
| ExecSkip (T : Z) (Ts : list Z) (acc r : list Config) :
    loop_body b c x T = None -> exec_loop b c x Ts acc r ->
    exec_loop b c x (T :: Ts) acc r.

(** A call [get_config(baudrate, cpu_freq)] that raises or returns. *)
Inductive exec_get_config (b c : Z) : py_error + list Config -> Prop :=
| ExecRaise : b = 0 -> exec_get_config b c (inl ZeroDivisionError)
| ExecReturn (r : list Config) :
    b <> 0 -> exec_loop b c (inject_Z c / inject_Z b)%Q (py_range 8 (25 + 1)) [] r ->
    exec_get_config b c (inr r).

(** ** The batch of [main] (avr-can.py) *)

(** [confs = [best_error_rate(baudrate, args.f_cpu) for baudrate in
    args.baudrates]]: the first exception aborts the comprehension. *)
Fixpoint best_all (baudrates : list Z) (f_cpu : Z) : py_error + list (option Config) :=
  match baudrates with
  | [] => inr []
  | b :: bs =>
      match best_error_rate b f_cpu with
      | inl e => inl e
      | inr o =>
          match best_all bs f_cpu with
          | inl e => inl e
          | inr os => inr (o :: os)
          end
      end
  end.

(** [if confs == []: print("No valid baudrate config found"); exit(1)]. *)
Definition main_exits_no_config (confs : list (option Config)) : bool :=
  match confs with [] => true | _ => false end.

(** ** Header text (main.py)

    Strings are modelled as ASCII strings.  [str(n)] of an integer is its
    decimal rendering; [str(x)] of a float and the text of
    [datetime.now().strftime('%c')] are parameters of the section. *)

Definition py_str_int (z : Z) : string := NilZero.string_of_int (Z.to_int z).

(** [c.upper()] on one ASCII character. *)
Definition ascii_upper (a : ascii) : ascii :=
  let n := nat_of_ascii a in
  if (97 <=? n)%nat && (n <=? 122)%nat then ascii_of_nat (n - 32) else a.

(** [s.upper()]. *)
Fixpoint py_upper (s : string) : string :=
  match s with
  | EmptyString => EmptyString
  | String a r => String (ascii_upper a) (py_upper r)
  end.

(** [s.replace(" ", "_")]. *)
Fixpoint replace_space (s : string) : string :=
  match s with
  | EmptyString => EmptyString
  | String a r =>
      String (if Ascii.eqb a " "%char then "_"%char else a) (replace_space r)
  end.

(** [name.upper().replace(" ", "_")], in [make_header] and [wrap_header]. *)
Definition guard_name (name : string) : string := replace_space (py_upper name).

(** [s[:-k]] for [k > 0]. *)
Definition py_drop_end (s : string) (k : nat) : string :=
  string_of_list_ascii
    (firstn (List.length (list_ascii_of_string s) - k) (list_ascii_of_string s)).

(** ["sep".join(parts)]. *)
Fixpoint py_join (sep : string) (parts : list string) : string :=
  match parts with
  | [] => EmptyString
  | [p] => p
  | p :: ps => (p ++ sep ++ py_join sep ps)%string
  end.

Definition nl : string := String (ascii_of_nat 10) EmptyString.

(** Values passed to [Define]. *)
Inductive py_value : Type :=
| VInt (z : Z)
| VFloat (q : Q)
| VStr (s : string).

(** Errors of [make_header]: those of [best_error_rate], and the
    [AttributeError] of [None.header_defs()]. *)
Inductive mh_error : Type :=
| MHRaise (e : py_error)
| AttributeError.

Section Header.

Variables (str_float : Q -> string) (now_c : string).

Definition py_str_value (v : py_value) : string :=
  match v with
  | VInt z => py_str_int z
  | VFloat q => str_float q
  | VStr s => s
  end.

(** [Define.__str__]: ["#define {} ({})\n".format(self.name.upper(), self.value)]. *)
Definition define_str (name : string) (v : py_value) : string :=
  ("#define " ++ py_upper name ++ " (" ++ py_str_value v ++ ")" ++ nl)%string.

(** [Config.header_defs] of main.py. *)
Definition header_defs (cfg : Config) : list (string * py_value) :=
  [("CAN_BAUDRATE", VInt (baudrate cfg));
   ("CAN_PRESCALER", VInt (prescaler cfg));
   ("CAN_CLKS_PR_BIT", VFloat (clks_pr_bit cfg));
   ("CAN_TBIT", VInt (Tbit cfg));
   ("CAN_TSYNS", VInt (Tsyns cfg));
   ("CAN_TPRS", VInt (Tprs cfg));
   ("CAN_TPH1", VInt (Tph1 cfg));
   ("CAN_TPH2", VInt (Tph2 cfg));
   ("CAN_SJW", VInt (Tsjw cfg));
   ("CAN_ERR_RATE", VFloat (error_rate cfg))]%string.

(** [make_header(baud, cpu_freq, name)] of main.py. *)
Definition make_header (baud cpu : Z) (name : string) : mh_error + string :=
  let name' := guard_name name in
  let header_start := py_join nl
    ["/**"; " * " ++ now_c;
     " * This file is machine generated and should not be altered by hand.";
     " */"; nl; "#ifndef " ++ name' ++ "_H"; "#define " ++ name' ++ "_H"; nl]%string in
  let encaps_start := ("#if F_CPU == " ++ py_str_int cpu ++ nl ++ nl)%string in
  match best_error_rate baud cpu with
  | inl e => inl (MHRaise e)
  | inr None => inl AttributeError
  | inr (Some conf) =>
      let conf_defs :=
        String.concat "" (map (fun d => define_str (fst d) (snd d)) (header_defs conf)) in
      let reg_vals := String.concat ""
        [define_str "CANBT1_VALUE" (VStr "(CAN_PRESCALER-1)<<BRP0");
         define_str "CANBT2_VALUE" (VStr "((CAN_TPRS-1)<<PRS0) | ((CAN_SJW-1)<<SJW0)");
         define_str "CANBt3_VALUE" (VStr "((CAN_TPH1-1)<<PHS10) | ((CAN_TPH2-1)<<PHS20)")]%string in
      let encaps_end := (nl ++ "#endif /* " ++ py_drop_end encaps_start 3 ++ " */" ++ nl)%string in
      let header_end := py_join nl [nl ++ "#endif /* " ++ name' ++ "_H */"]%string in
      inr (header_start ++ encaps_start ++ conf_defs ++ reg_vals ++ encaps_end ++ header_end)%string
  end.

End Header.

(** ** Header text and reports of [main] (avr-can.py) *)

Section AvrMain.

Variables (str_float : Q -> string) (now_c : string).










End AvrMain.


(** One character of [guard_name]. *)
Definition guard_char (a : ascii) : ascii :=
  if Ascii.eqb (ascii_upper a) " "%char then "_"%char else ascii_upper a.

Definition guard_char_ok (a : ascii) : bool :=
  negb (Ascii.eqb a " "%char) &&
  negb ((97 <=? nat_of_ascii a)%nat && (nat_of_ascii a <=? 122)%nat).

Fixpoint map_string (f : ascii -> ascii) (s : string) : string :=
  match s with
  | EmptyString => EmptyString
  | String a r => String (f a) (map_string f r)
  end.

(** ** Characters of the guard name *)

Lemma guard_char_all (a : ascii) :
  guard_char_ok (guard_char a) = true /\ guard_char (guard_char a) = guard_char a.
Proof.
  destruct a as [[] [] [] [] [] [] [] []]; split; vm_compute; reflexivity.
Qed.

(** ** Facts about the Python arithmetic *)




Lemma py_lt_true (x y : Q) : py_lt x y = true <-> (x < y)%Q.
Proof.
  unfold py_lt. split.
  - intros H. apply Qnot_le_lt. intros F. apply Qle_bool_iff in F.
    rewrite F in H. discriminate.
  - intros H. destruct (Qle_bool y x) eqn:E; [|reflexivity].
    apply Qle_bool_iff in E. exfalso. apply (Qlt_not_le _ _ H E).
Qed.

Lemma py_int_nonneg (x : Q) (t : Z) :
  (0 <= Qnum x)%Z -> (0 < t)%Z -> py_int (x / inject_Z t) = Qfloor (x / inject_Z t).
Proof.
  intros Hx Ht. destruct x as [n d]. destruct t as [|p|p]; try lia.
  unfold py_int, Qfloor, Qdiv, Qinv, Qmult, inject_Z. simpl in *.
  apply Z.quot_div_nonneg; lia.
Qed.

(** ** The loop body *)

(** The threshold does not depend on the override: [Tsjw] is 1. *)
Lemma min_err_rate_fixed (b prs ph1 ph2 : Z) :
  min_err_rate prs ph1 ph2 Tsjw_of b = 1 # 2.
Proof.
  unfold min_err_rate, Tsjw_of. simpl (1 =? 4).
  rewrite !andb_false_r. reflexivity.
Qed.

Lemma loop_body_some (b c : Z) (x : Q) (T : Z) (cfg : Config) :
  loop_body b c x T = Some cfg ->
  cfg = mkConfig c b (py_int (x / inject_Z T)) x T Tsyns_of (Tprs_of T)
          (Tph1_of T) (Tph2_of T) Tsjw_of (py_mod x T)
  /\ (py_int (x / inject_Z T) <= 64)%Z
  /\ segments_ok T (Tprs_of T) (Tph1_of T) (Tph2_of T) = true
  /\ py_lt (py_mod x T) (1 # 2) = true.
Proof.
  unfold loop_body. rewrite min_err_rate_fixed.
  destruct (py_int (x / inject_Z T) >? 2 ^ 6) eqn:E1; [discriminate|].
  destruct (segments_ok T (Tprs_of T) (Tph1_of T) (Tph2_of T)) eqn:E2;
    [|discriminate].
  destruct (py_lt (py_mod x T) (1 # 2)) eqn:E3; [|discriminate].
  simpl. intros H. inversion H. repeat split; auto.
  rewrite Z.gtb_ltb, Z.ltb_ge in E1. change (2 ^ 6)%Z with 64%Z in E1. exact E1.
Qed.




(** The range check over [range(8, 26)] accepts exactly [good_Tbits]. *)
Lemma segments_ok_table (T : Z) :
  In T (py_range 8 (25 + 1)) ->
  segments_ok T (Tprs_of T) (Tph1_of T) (Tph2_of T) = existsb (Z.eqb T) good_Tbits.
Proof.
  intros H. vm_compute in H.
  repeat (destruct H as [<- | H]; [vm_compute; reflexivity |]).
  contradiction.
Qed.

Lemma in_good_Tbits (T : Z) : existsb (Z.eqb T) good_Tbits = true <-> In T good_Tbits.
Proof.
  rewrite existsb_exists. split.
  - intros [y [Hy E]]. apply Z.eqb_eq in E. subst. exact Hy.
  - intros H. exists T. split; [exact H | apply Z.eqb_refl].
Qed.

(** ** The loop *)

Section Loop.

Variables (b c : Z) (x : Q).

Lemma in_run_loop (Ts : list Z) (acc : list Config) (cfg : Config) :
  In cfg (run_loop b c x Ts acc) <->
  In cfg acc \/ exists T, In T Ts /\ loop_body b c x T = Some cfg.
Proof.
  revert acc. induction Ts as [|T Ts IH]; intros acc; simpl.
  - split; [auto | intros [H | [T [[] _]]]; exact H].
  - destruct (loop_body b c x T) as [cfg'|] eqn:E; rewrite IH.
    + rewrite in_app_iff. simpl. split.
      * intros [[H | [H | []]] | [T' [H1 H2]]]; eauto.
        right. exists T. subst. auto.
      * intros [H | [T' [[<- | H1] H2]]]; eauto.
        left. right. left. congruence.
    + split.
      * intros [H | [T' [H1 H2]]]; eauto.
      * intros [H | [T' [[<- | H1] H2]]]; eauto. congruence.
Qed.


Lemma run_loop_Tbits (f : Z -> bool) (Ts : list Z) (acc : list Config) :
  (forall T, In T Ts ->
     match loop_body b c x T with
     | Some cfg => Tbit cfg = T /\ f T = true
     | None => f T = false
     end) ->
  map Tbit (run_loop b c x Ts acc) = map Tbit acc ++ filter f Ts.
Proof.
  revert acc. induction Ts as [|T Ts IH]; intros acc H; simpl.
  - rewrite app_nil_r. reflexivity.
  - pose proof (H T (or_introl eq_refl)) as HT.
    assert (H' : forall T', In T' Ts -> _) by (intros T' HT'; apply H; right; exact HT').
    destruct (loop_body b c x T) as [cfg|]; rewrite IH by exact H'.
    + destruct HT as [<- ->]. rewrite map_app. simpl. rewrite <- app_assoc. reflexivity.
    + rewrite HT. reflexivity.
Qed.

End Loop.

Lemma in_get_config (b c : Z) (l : list Config) (cfg : Config) :
  get_config b c = inr l -> In cfg l ->
  b <> 0 /\ exists T, In T (py_range 8 (25 + 1)) /\
    loop_body b c (inject_Z c / inject_Z b)%Q T = Some cfg.
Proof.
  unfold get_config, py_div. destruct (Z.eqb_spec b 0) as [_|Hb]; [discriminate|].
  intros H Hin. remember (run_loop _ _ _ _ _) as r eqn:Er.
  injection H as ->. split; [exact Hb|]. rewrite Er in Hin.
  apply in_run_loop in Hin. destruct Hin as [[] | HT]. exact HT.
Qed.

(** ** [best_error_rate]: head of the stable sort *)



(** ** Small clock ratios *)

Lemma in_range_ge_8 (T : Z) : In T (py_range 8 (25 + 1)) -> 8 <= T.
Proof.
  intros H. vm_compute in H.
  repeat (destruct H as [<- | H]; [lia |]). contradiction.
Qed.


Lemma inject_Z_pos (T : Z) : 0 < T -> (0 < inject_Z T)%Q.
Proof. intros H. change 0%Q with (inject_Z 0). rewrite <- Zlt_Qlt. exact H. Qed.


Section SmallRatio.

Variables (b c : Z) (x : Q).
Hypotheses (Hx0 : (0 <= x)%Q) (Hx8 : (x < 8)%Q).





End SmallRatio.

Lemma clks_nonneg (b c : Z) : 0 < b -> 0 <= c -> (0 <= inject_Z c / inject_Z b)%Q.
Proof.
  intros Hb Hc. apply Qle_shift_div_l; [apply inject_Z_pos; exact Hb|].
  rewrite Qmult_0_l. change 0%Q with (inject_Z 0). rewrite <- Zle_Qle. exact Hc.
Qed.

Section NegRatio.

Variables (b c : Z) (x : Q).
Hypotheses (Hx1 : (-1 <= x)%Q) (Hx0 : (x < 0)%Q).


End NegRatio.

Lemma exec_loop_run (b c : Z) (x : Q) (Ts : list Z) (acc r : list Config) :
  exec_loop b c x Ts acc r <-> r = run_loop b c x Ts acc.
Proof.
  split.
  - induction 1 as [acc | T Ts acc r cfg Hb _ IH | T Ts acc r Hb _ IH];
      simpl; try rewrite Hb; auto.
  - intros ->. revert acc. induction Ts as [|T Ts IH]; intros acc; simpl.
    + constructor.
    + destruct (loop_body b c x T) as [cfg|] eqn:E.
      * eapply ExecAppend; [exact E | apply IH].
      * apply ExecSkip; [exact E | apply IH].
Qed.

Lemma Qnum_nonneg (x : Q) : (0 <= x)%Q -> 0 <= Qnum x.
Proof. destruct x as [n d]. unfold Qle. simpl. lia. Qed.



Lemma exec_get_config_fun (b c : Z) (r : py_error + list Config) :
  exec_get_config b c r <-> r = get_config b c.
Proof.
  unfold get_config, py_div. split.
  - intros [Hb | r' Hb Hl].
    + subst. reflexivity.
    + destruct (Z.eqb_spec b 0) as [E|_]; [contradiction|].
      apply exec_loop_run in Hl. subst. reflexivity.
  - destruct (Z.eqb_spec b 0) as [E|E]; intros ->.
    + constructor. exact E.
    + constructor; [exact E|]. apply exec_loop_run. reflexivity.
Qed.

(** ** The claims *)

(** C1: for positive [baudrate] and [cpu_freq], every candidate emitted by
    [get_config] satisfies [Tbit = Tsyns + Tprs + Tph1 + Tph2],
    [1 <= Tprs <= 8], [1 <= Tph1 <= 8], [2 <= Tph2 <= Tph1],
    [prescaler <= 64] and [error_rate < 0.5]. *)
Theorem get_config_invariants (b c : Z) (l : list Config) (cfg : Config) :
  0 < b -> 0 < c -> get_config b c = inr l -> In cfg l ->
  Tbit cfg = Tsyns cfg + Tprs cfg + Tph1 cfg + Tph2 cfg /\
  1 <= Tprs cfg <= 8 /\ 1 <= Tph1 cfg <= 8 /\ 2 <= Tph2 cfg <= Tph1 cfg /\
  prescaler cfg <= 64 /\ (error_rate cfg < 1 # 2)%Q.
Proof.
  intros _ _ Hl Hin.
  destruct (in_get_config b c l cfg Hl Hin) as [_ [T [_ HT]]].
  apply loop_body_some in HT. destruct HT as [-> [Hpre [Hseg Herr]]].
  unfold segments_ok in Hseg.
  cbn [Tbit Tsyns Tprs Tph1 Tph2 prescaler error_rate].
  repeat rewrite andb_true_iff in Hseg. rewrite Z.eqb_eq in Hseg.
  repeat rewrite Z.leb_le in Hseg.
  apply py_lt_true in Herr. repeat split; try lia. exact Herr.
Qed.

Lemma get_config_invariants_witness :
  tiny_configs <> [] /\
  Forall (fun cfg =>
    Tbit cfg = Tsyns cfg + Tprs cfg + Tph1 cfg + Tph2 cfg /\
    1 <= Tprs cfg <= 8 /\ 1 <= Tph1 cfg <= 8 /\ 2 <= Tph2 cfg <= Tph1 cfg /\
    prescaler cfg <= 64 /\ (error_rate cfg < 1 # 2)%Q) tiny_configs.
Proof.
  split; [vm_compute; discriminate|].
  apply Forall_forall. intros cfg Hin.
  apply (get_config_invariants 1000000 1 tiny_configs cfg);
    [reflexivity | reflexivity | reflexivity | exact Hin].
Defined.



(** C8: the override of [min_err_rate] to 1.58 never fires: with
    [Tsjw = 1] the threshold is 0.5 for every [Tbit] and every
    [baudrate], and every emitted candidate has [Tsjw = 1]. *)
Theorem min_err_rate_override_dead :
  (forall b T, min_err_rate (Tprs_of T) (Tph1_of T) (Tph2_of T) Tsjw_of b = 1 # 2) /\
  (forall b c l cfg, get_config b c = inr l -> In cfg l -> Tsjw cfg = 1).
Proof.
  split.
  - intros b T. unfold min_err_rate, Tsjw_of. simpl (1 =? 4).
    rewrite !andb_false_r. reflexivity.
  - intros b c l cfg Hl Hin.
    destruct (in_get_config b c l cfg Hl Hin) as [_ [T [_ HT]]].
    apply loop_body_some in HT. destruct HT as [-> _]. reflexivity.
Qed.

Lemma min_err_rate_override_dead_witness :
  min_err_rate (Tprs_of 17) (Tph1_of 17) (Tph2_of 17) Tsjw_of 500000 = 1 # 2 /\
  Forall (fun cfg => Tsjw cfg = 1) tiny_configs.
Proof.
  split; [apply min_err_rate_override_dead|].
  apply Forall_forall. intros cfg Hin.
  apply (proj2 min_err_rate_override_dead 1000000 1 tiny_configs cfg);
    [reflexivity | exact Hin].
Defined.

(** C9: the segment values depend on [Tbit] only, and over
    [range(8, 26)] the range check accepts exactly the [Tbit] values
    9, 10, 11, 13, 14, 15 and 17; so every candidate of [get_config], for
    any inputs, has its [Tbit] among these seven. *)
Theorem get_config_Tbit_set :
  (forall T, In T (py_range 8 (25 + 1)) ->
     (segments_ok T (Tprs_of T) (Tph1_of T) (Tph2_of T) = true <->
      In T good_Tbits)) /\
  (forall b c l cfg, get_config b c = inr l -> In cfg l -> In (Tbit cfg) good_Tbits).
Proof.
  split.
  - intros T HT. rewrite segments_ok_table by exact HT. apply in_good_Tbits.
  - intros b c l cfg Hl Hin.
    destruct (in_get_config b c l cfg Hl Hin) as [_ [T [HT Hbody]]].
    apply loop_body_some in Hbody. destruct Hbody as [-> [_ [Hseg _]]].
    rewrite segments_ok_table in Hseg by exact HT.
    apply in_good_Tbits. exact Hseg.
Qed.

Lemma get_config_Tbit_set_witness :
  (segments_ok 16 (Tprs_of 16) (Tph1_of 16) (Tph2_of 16) = true <-> In 16 good_Tbits) /\
  Forall (fun cfg => In (Tbit cfg) good_Tbits) tiny_configs.
Proof.
  split.
  - apply get_config_Tbit_set. vm_compute. tauto.
  - apply Forall_forall. intros cfg Hin.
    apply (proj2 get_config_Tbit_set 1000000 1 tiny_configs cfg);
      [reflexivity | exact Hin].
Defined.



(** C4 (counterexample): for [cpu_freq = 8000000], [baudrate = 1000000]
    ([clks_pr_bit = 8]) the candidate with [Tbit = 8] is not produced,
    and neither is any other one. *)
Lemma scenario_B_counterexample :
  get_config 1000000 8000000 = inr [] /\
  loop_body 1000000 8000000 (inject_Z 8000000 / inject_Z 1000000)%Q 8 = None.
Proof. split; vm_compute; reflexivity. Qed.

(** C4 (amended): for [cpu_freq = 8000000], [baudrate = 1000000],
    [get_config] returns the empty list and [best_error_rate] returns
    [None]: [Tbit = 8] fails the range check ([Tprs = 4], [Tph1 = 3],
    [Tph2 = 2] sum with [Tsyns] to 10), and every [Tbit] that passes it
    is larger than 8, leaving the remainder [8 % Tbit = 8]. *)
Theorem scenario_B_empty :
  get_config 1000000 8000000 = inr [] /\
  best_error_rate 1000000 8000000 = inr None /\
  (Tprs_of 8, Tph1_of 8, Tph2_of 8) = (4, 3, 2) /\
  segments_ok 8 (Tprs_of 8) (Tph1_of 8) (Tph2_of 8) = false /\
  Forall (fun T => (py_mod (inject_Z 8000000 / inject_Z 1000000) T == 8)%Q) good_Tbits.
Proof.
  split; [vm_compute; reflexivity|]. split; [vm_compute; reflexivity|].
  split; [vm_compute; reflexivity|]. split; [vm_compute; reflexivity|].
  repeat constructor.
Qed.










(** C10: [get_config] is deterministic: the function is an execution of
    the loop, and any two executions of [get_config(baudrate, cpu_freq)]
    on the same arguments end in equal results, the same list in the same
    order (or the same exception). *)
Theorem search_deterministic (b c : Z) :
  exec_get_config b c (get_config b c) /\
  forall r1 r2, exec_get_config b c r1 -> exec_get_config b c r2 -> r1 = r2.
Proof.
  split.
  - apply exec_get_config_fun. reflexivity.
  - intros r1 r2 H1 H2. apply exec_get_config_fun in H1, H2. congruence.
Qed.

Lemma search_deterministic_witness :
  exec_get_config 1000000 1 (get_config 1000000 1) /\
  get_config 1000000 1 = get_config 1000000 1.
Proof.
  split; [apply (search_deterministic 1000000 1)|].
  apply (proj2 (search_deterministic 1000000 1));
    apply (search_deterministic 1000000 1).
Defined.

(** ** Further properties of the search *)

(** X1: for every [Tbit >= 0] the derived segments [Tsyns + Tprs + Tph1
    + Tph2] add up to [Tbit], except when [Tbit] is a multiple of 4, where
    they add up to [Tbit + 2]. *)
Theorem segment_sum_mod4 (T : Z) :
  0 <= T ->
  Tsyns_of + Tprs_of T + Tph1_of T + Tph2_of T = if T mod 4 =? 0 then T + 2 else T.
Proof.
  intros H. unfold Tsyns_of, Tph1_of, Tph2_of, Tprs_of, Tsyns_of, is_even.
  repeat match goal with
  | |- context [?a ÷ 2] =>
      rewrite (Z.quot_div_nonneg a 2) by (Z.to_euclidean_division_equations; lia)
  end.
  repeat match goal with
  | |- context [?a =? ?b] => destruct (Z.eqb_spec a b)
  end; Z.to_euclidean_division_equations; lia.
Qed.

Lemma segment_sum_mod4_witness :
  0 <= 12 /\ Tsyns_of + Tprs_of 12 + Tph1_of 12 + Tph2_of 12 = 14.
Proof. split; [lia | apply (segment_sum_mod4 12); lia]. Defined.

Lemma run_loop_filter (b c : Z) (x : Q) (Ts : list Z) :
  map Tbit (run_loop b c x Ts []) =
  filter (fun T => match loop_body b c x T with Some _ => true | None => false end) Ts.
Proof.
  rewrite (run_loop_Tbits b c x
             (fun T => match loop_body b c x T with Some _ => true | None => false end)).
  - reflexivity.
  - intros T _. destruct (loop_body b c x T) as [cfg|] eqn:E; [|reflexivity].
    apply loop_body_some in E. destruct E as [-> _]. split; reflexivity.
Qed.





Lemma StronglySorted_filter_Z (f : Z -> bool) (l : list Z) :
  StronglySorted Z.lt l -> StronglySorted Z.lt (filter f l).
Proof.
  induction 1 as [|a l Hs IH Hf]; simpl; [constructor|].
  destruct (f a); [|exact IH]. constructor; [exact IH|].
  apply Forall_forall. intros y Hy. apply filter_In in Hy.
  rewrite Forall_forall in Hf. apply Hf, Hy.
Qed.

Lemma StronglySorted_NoDup_Z (l : list Z) : StronglySorted Z.lt l -> NoDup l.
Proof.
  induction 1 as [|a l Hs IH Hf]; constructor; [|exact IH].
  intros Ha. rewrite Forall_forall in Hf. specialize (Hf a Ha). lia.
Qed.

(** X3: the candidates of [get_config] come in strictly ascending [Tbit]
    order, one per [Tbit] at most, and there are at most seven of them. *)
Theorem get_config_ascending (b c : Z) (l : list Config) :
  get_config b c = inr l ->
  StronglySorted Z.lt (map Tbit l) /\ (List.length l <= 7)%nat.
Proof.
  unfold get_config, py_div. destruct (Z.eqb_spec b 0); [discriminate|].
  intros H. remember (run_loop _ _ _ _ _) as r eqn:Er.
  injection H as ->. assert (Hs : StronglySorted Z.lt (map Tbit l)).
  { rewrite Er, run_loop_filter. apply StronglySorted_filter_Z.
    vm_compute. repeat constructor. }
  split; [exact Hs|].
  rewrite <- (length_map Tbit l). change 7%nat with (List.length good_Tbits).
  apply NoDup_incl_length; [apply StronglySorted_NoDup_Z; exact Hs|].
  intros T HT. apply in_map_iff in HT. destruct HT as [cfg [<- Hin]].
  rewrite Er in Hin. apply in_run_loop in Hin. destruct Hin as [[] | [T [HT Hbody]]].
  apply loop_body_some in Hbody. destruct Hbody as [-> [_ [Hseg _]]].
  rewrite segments_ok_table in Hseg by exact HT. apply in_good_Tbits, Hseg.
Qed.

Lemma get_config_ascending_witness :
  StronglySorted Z.lt (map Tbit tiny_configs) /\ (List.length tiny_configs <= 7)%nat.
Proof. apply (get_config_ascending 1000000 1 tiny_configs). reflexivity. Defined.



(** X5: for positive [baudrate] and [cpu_freq], every candidate splits
    [clks_pr_bit] as [prescaler * Tbit + error_rate] with
    [0 <= error_rate]: the error rate is the part of [clks_pr_bit] that
    [prescaler] whole bit times leave over. *)
Theorem get_config_error_split (b c : Z) (l : list Config) (cfg : Config) :
  0 < b -> 0 < c -> get_config b c = inr l -> In cfg l ->
  (clks_pr_bit cfg == inject_Z (prescaler cfg) * inject_Z (Tbit cfg) + error_rate cfg)%Q /\
  (0 <= error_rate cfg)%Q.
Proof.
  intros Hb Hc Hl Hin.
  destruct (in_get_config b c l cfg Hl Hin) as [_ [T [HT Hbody]]].
  apply loop_body_some in Hbody. destruct Hbody as [-> _].
  cbn [clks_pr_bit prescaler Tbit error_rate].
  set (x := (inject_Z c / inject_Z b)%Q).
  assert (H0 : (0 <= x)%Q) by (apply clks_nonneg; lia).
  pose proof (in_range_ge_8 T HT) as H8.
  assert (HQ : (0 < inject_Z T)%Q) by (apply inject_Z_pos; lia).
  rewrite py_int_nonneg by (apply Qnum_nonneg in H0; lia).
  unfold py_mod. split; [ring|].
  assert (F : (inject_Z (Qfloor (x / inject_Z T)) * inject_Z T <= x)%Q).
  { assert (E : (x / inject_Z T * inject_Z T == x)%Q).
    { field. intros Z0. rewrite Z0 in HQ. discriminate. }
    rewrite <- E at 2. apply Qmult_le_compat_r; [apply Qfloor_le | lra]. }
  lra.
Qed.

Lemma get_config_error_split_witness :
  Forall (fun cfg =>
    (clks_pr_bit cfg == inject_Z (prescaler cfg) * inject_Z (Tbit cfg) + error_rate cfg)%Q /\
    (0 <= error_rate cfg)%Q) tiny_configs.
Proof.
  apply Forall_forall. intros cfg Hin.
  apply (get_config_error_split 1000000 1 tiny_configs cfg);
    [reflexivity | reflexivity | reflexivity | exact Hin].
Defined.



(** ** Scaling both inputs *)










(** ** The batch of [main] *)




(** X9: when the batch of [main] returns, it has one entry per requested
    baud rate, in order, and entry [i] is [best_error_rate] of baud rate
    [i]; so [confs == []], the "No valid baudrate config found" exit,
    happens exactly when no baud rate was given, never because no
    configuration was found. *)
Theorem best_all_entries (baudrates : list Z) (f_cpu : Z) (confs : list (option Config)) :
  best_all baudrates f_cpu = inr confs ->
  List.length confs = List.length baudrates /\
  (forall i b, nth_error baudrates i = Some b ->
     exists o, nth_error confs i = Some o /\ best_error_rate b f_cpu = inr o) /\
  (main_exits_no_config confs = true <-> baudrates = []).
Proof.
  revert confs. induction baudrates as [|b bs IH]; simpl; intros confs H.
  - injection H as <-. split; [reflexivity|]. split; [|tauto].
    intros [|i] b' Hn; discriminate.
  - destruct (best_error_rate b f_cpu) as [e|o] eqn:E; [discriminate|].
    destruct (best_all bs f_cpu) as [e|os]; [discriminate|].
    injection H as <-. destruct (IH os eq_refl) as [Hlen [Hnth _]].
    split; [simpl; congruence|]. split.
    + intros [|i] b' Hn; simpl in Hn |- *.
      * injection Hn as <-. eauto.
      * apply Hnth, Hn.
    + simpl. split; discriminate.
Qed.

Lemma best_all_entries_witness :
  exists confs, best_all [500000; 100000] 8000000 = inr confs /\
  List.length confs = 2%nat /\
  (forall i b, nth_error [500000; 100000] i = Some b ->
     exists o, nth_error confs i = Some o /\ best_error_rate b 8000000 = inr o) /\
  (main_exits_no_config confs = true <-> [500000; 100000] = []).
Proof.
  eexists. split; [reflexivity|].
  apply (best_all_entries [500000; 100000] 8000000). reflexivity.
Defined.

(** ** Header names *)

Lemma guard_name_map (s : string) : guard_name s = map_string guard_char s.
Proof.
  unfold guard_name. induction s as [|a r IH]; simpl; [reflexivity|].
  rewrite <- IH. reflexivity.
Qed.

(** X10: the include-guard name [name.upper().replace(" ", "_")] used by
    [make_header] and [wrap_header] contains no space and no lower-case
    ASCII letter, and normalising it again changes nothing. *)
Theorem guard_name_normal (name : string) :
  guard_name (guard_name name) = guard_name name /\
  Forall (fun a => a <> " "%char /\ ~ (97 <= nat_of_ascii a <= 122)%nat)
    (list_ascii_of_string (guard_name name)).
Proof.
  rewrite !guard_name_map. induction name as [|a r [IH1 IH2]]; simpl.
  - split; [reflexivity | constructor].
  - destruct (guard_char_all a) as [Hok Hid]. rewrite IH1, Hid. split; [reflexivity|].
    constructor; [|exact IH2].
    unfold guard_char_ok in Hok. apply andb_true_iff in Hok. destruct Hok as [H1 H2].
    split.
    + intros E. rewrite E in H1. discriminate.
    + intros [L U]. apply Nat.leb_le in L. apply Nat.leb_le in U.
      rewrite L, U in H2. discriminate.
Qed.

(** ** [make_header] of main.py *)

Lemma get_config_inl (b c : Z) (e : py_error) : get_config b c = inl e <-> b = 0.
Proof.
  destruct e. unfold get_config, py_div.
  destruct (Z.eqb_spec b 0) as [E|E]; split; intros H; try reflexivity;
    try exact E; try contradiction; discriminate.
Qed.

Lemma insert_by_err_cons (x : Config) (l : list Config) :
  exists y t, insert_by_err x l = y :: t.
Proof. destruct l as [|y r]; simpl; [eauto|]. destruct (Qle_bool _ _); eauto. Qed.

(** X11: [make_header] has exactly three outcomes: it raises
    ZeroDivisionError exactly when the baud rate is 0, raises
    AttributeError ([None.header_defs()]) exactly when the search finds
    no candidate, and returns a header exactly when it finds one. *)
Theorem make_header_outcomes (str_float : Q -> string) (now_c : string)
    (baud cpu : Z) (name : string) :
  (make_header str_float now_c baud cpu name = inl (MHRaise ZeroDivisionError) <-> baud = 0) /\
  (make_header str_float now_c baud cpu name = inl AttributeError <->
     get_config baud cpu = inr []) /\
  ((exists s, make_header str_float now_c baud cpu name = inr s) <->
     exists cfg l, get_config baud cpu = inr (cfg :: l)).
Proof.
  unfold make_header, best_error_rate.
  destruct (get_config baud cpu) as [e|l] eqn:G.
  - pose proof (proj1 (get_config_inl baud cpu e) G) as Hb. destruct e.
    split; [tauto|]. split; split; try discriminate.
    + intros [s H]; discriminate.
    + intros (cfg & l & H); discriminate.
  - assert (Hb : baud <> 0).
    { intros E. destruct (get_config_inl baud cpu ZeroDivisionError) as [_ H].
      rewrite (H E) in G. discriminate. }
    destruct l as [|x r].
    + split; [split; [discriminate | contradiction]|].
      split; [tauto|]. split; [intros [s H]; discriminate | intros (cfg & l & H); discriminate].
    + simpl. destruct (insert_by_err_cons x (sorted_by_err r)) as (y & t & ->). simpl.
      split; [split; [discriminate | contradiction]|].
      split; [split; discriminate|]. split; [eauto | intros _; eauto].
Qed.

Lemma lasc_app (s1 s2 : string) :
  list_ascii_of_string (s1 ++ s2) = list_ascii_of_string s1 ++ list_ascii_of_string s2.
Proof. induction s1 as [|a r IH]; simpl; [reflexivity | rewrite IH; reflexivity]. Qed.

Lemma str_app_assoc (s1 s2 s3 : string) : ((s1 ++ s2) ++ s3 = s1 ++ (s2 ++ s3))%string.
Proof. induction s1 as [|a r IH]; simpl; [reflexivity | rewrite IH; reflexivity]. Qed.

Lemma slas_app (l1 l2 : list ascii) :
  string_of_list_ascii (l1 ++ l2) = (string_of_list_ascii l1 ++ string_of_list_ascii l2)%string.
Proof. induction l1 as [|a r IH]; simpl; [reflexivity | rewrite IH; reflexivity]. Qed.

Lemma tail_split (a b c e t u : string) :
  t = u -> (a ++ b ++ c ++ e ++ t = (a ++ b ++ c ++ e) ++ u)%string.
Proof. intros ->. rewrite !str_app_assoc. reflexivity. Qed.

Lemma string_snoc (s : string) : s <> EmptyString -> exists D d, s = (D ++ String d EmptyString)%string.
Proof.
  induction s as [|a r IH]; intros H; [contradiction|].
  destruct r as [|b r'].
  - exists EmptyString, a. reflexivity.
  - destruct IH as (D & d & E); [discriminate|]. exists (String a D), d.
    rewrite E. reflexivity.
Qed.

Lemma py_str_int_nonempty (z : Z) : py_str_int z <> EmptyString.
Proof.
  unfold py_str_int, NilZero.string_of_int.
  destruct (Z.to_int z) as [u|u]; [|discriminate]. destruct u; discriminate.
Qed.

Lemma drop_end_encaps (A D : string) (d : ascii) :
  py_drop_end (A ++ (D ++ String d EmptyString) ++ nl ++ nl) 3 = (A ++ D)%string.
Proof.
  unfold py_drop_end. rewrite !lasc_app. simpl.
  rewrite <- !app_assoc. simpl. rewrite !length_app. simpl.
  replace (List.length (list_ascii_of_string A) + (List.length (list_ascii_of_string D) + 3) - 3)%nat
    with (List.length (list_ascii_of_string A) + List.length (list_ascii_of_string D))%nat by lia.
  rewrite firstn_app_2, <- (Nat.add_0_r (List.length (list_ascii_of_string D))),
    firstn_app_2, firstn_O, app_nil_r.
  rewrite slas_app, !string_of_list_ascii_of_string. reflexivity.
Qed.

(** X12: a header returned by [make_header] ends with the comment
    [#endif /* #if F_CPU == D */] where [D] is the decimal text of the
    frequency without its last character ([encaps_start[:-3]] cuts the
    two newlines and one digit), followed by the include-guard end. *)
Theorem make_header_endif_comment (str_float : Q -> string) (now_c : string)
    (baud cpu : Z) (name s : string) :
  make_header str_float now_c baud cpu name = inr s ->
  exists body D d,
    py_str_int cpu = (D ++ String d EmptyString)%string /\
    s = (body ++ nl ++ "#endif /* #if F_CPU == " ++ D ++ " */" ++ nl ++
         nl ++ "#endif /* " ++ guard_name name ++ "_H */")%string.
Proof.
  destruct (string_snoc _ (py_str_int_nonempty cpu)) as (D & d & ED).
  unfold make_header. cbv zeta. destruct (best_error_rate baud cpu) as [e|[conf|]];
    intros H; try discriminate.
  pose proof (f_equal (fun r : mh_error + string =>
    match r with inr x => x | inl _ => EmptyString end) H) as Hs.
  cbv beta iota in Hs. subst s. rewrite ED, drop_end_encaps.
  eexists; exists D, d; split; [reflexivity|].
  apply tail_split. simpl py_join. rewrite !str_app_assoc. reflexivity.
Qed.

Lemma make_header_endif_comment_witness :
  exists s, make_header (fun _ => "0.0"%string) "" 100000 8000000 "can baud" = inr s /\
  exists body D d,
    py_str_int 8000000 = (D ++ String d EmptyString)%string /\
    s = (body ++ nl ++ "#endif /* #if F_CPU == " ++ D ++ " */" ++ nl ++
         nl ++ "#endif /* " ++ guard_name "can baud" ++ "_H */")%string.
Proof.
  exists (match make_header (fun _ => "0.0"%string) "" 100000 8000000 "can baud" with
          | inr s => s | inl _ => EmptyString end).
  split; [vm_compute; reflexivity|].
  apply (make_header_endif_comment (fun _ => "0.0"%string) "" 100000 8000000 "can baud").
  vm_compute; reflexivity.
Defined.

(** ** [main] of avr-can.py *)













